(** * grpc_error_util: from a failed gRPC call to an ExceptionDetail

    A shallow embedding of
    [src/devtools/common/metrics/stability/util/grpc_error_util.py]
    and the properties of [to_exception_detail].

    The function reads the trailing metadata of a [grpc.Call], parses the
    value stored under one fixed key as an [RpcErrorPayload], inflates the
    blob found inside and parses the result as an [ExceptionDetail].  The
    protobuf runtime and zlib are libraries the function calls: they enter
    the model through the interface [Runtime]; everything the Python source
    itself does (the capability test, the loop, the key comparison, the
    truth test, the order of the calls and the exceptions that escape) is
    written out. *)

From Stdlib Require Import String List.
From Stdlib Require Import Strings.Byte.
Import ListNotations.

Set Implicit Arguments.

(** ** Python values used by the module *)

(** Python [bytes]. *)
Definition bytes := list byte.

(** One trailing-metadata entry, grpc's [(key, value)] named tuple.  Keys
    are [str]; the value under a key that ends in [-bin] is [bytes]. *)
Record Metadatum := mkMetadatum {
  key : string;
  value : bytes
}.

(** [grpc.StatusCode]. *)
Inductive StatusCode :=
| OK | CANCELLED | UNKNOWN | INVALID_ARGUMENT | DEADLINE_EXCEEDED
| NOT_FOUND | ALREADY_EXISTS | PERMISSION_DENIED | RESOURCE_EXHAUSTED
| FAILED_PRECONDITION | ABORTED | OUT_OF_RANGE | UNIMPLEMENTED
| INTERNAL | UNAVAILABLE | DATA_LOSS | UNAUTHENTICATED.

(** What an object implementing [grpc.Call] answers to its four
    accessors. *)
Record Call := mkCall {
  initial_metadata : list Metadatum;
  trailing_metadata : list Metadatum;
  code : StatusCode;
  details : string
}.

(** The argument [e].  The annotation says [Union[grpc.RpcError, grpc.Call]],
    which Python does not enforce: the function separates the objects that
    are instances of [grpc.Call] from all the others. *)
Inductive PyObject :=
| RpcError_instance (args : list string)
| Call_instance (c : Call)
| other_instance (repr : string).

(** [isinstance(e, grpc.Call)] *)
Definition isinstance_Call (e : PyObject) : bool :=
  match e with
  | Call_instance _ => true
  | _ => false
  end.

(** The exceptions that can leave the function:
    [google.protobuf.message.DecodeError] and [zlib.error]. *)
Inductive exn := DecodeError | zlib_error.

(** A call either returns or raises. *)
Inductive outcome (A : Type) :=
| Return (a : A)
| Raise (x : exn).

Arguments Return {A} a.
Arguments Raise {A} x.

Definition bind {A B : Type} (c : outcome A) (k : A -> outcome B) : outcome B :=
  match c with
  | Return a => k a
  | Raise x => Raise x
  end.

Notation "x <- c ;; k" := (bind c (fun x => k))
  (at level 61, c at next level, right associativity).

(** A library call that raises [x] where the model answers [None]. *)
Definition or_raise {A : Type} (x : exn) (o : option A) : outcome A :=
  match o with
  | Some a => Return a
  | None => Raise x
  end.

(** ** The libraries behind the function *)

(** The two generated message classes and [zlib.decompress].  A parser
    answers [None] where the Python call raises. *)
Class Runtime := {
  RpcErrorPayload : Type;
  ExceptionDetail : Type;
  (** [rpc_error_payload_pb2.RpcErrorPayload.FromString] *)
  RpcErrorPayload_FromString : bytes -> option RpcErrorPayload;
  (** the field path [.rpc_error.compressed_exception_detail.compressed_data] *)
  compressed_data : RpcErrorPayload -> bytes;
  (** [zlib.decompress] *)
  zlib_decompress : bytes -> option bytes;
  (** [exception_pb2.ExceptionDetail.FromString] *)
  ExceptionDetail_FromString : bytes -> option ExceptionDetail
}.

(** The error-producing side: the inverse operations, which the module
    never calls but which the round trip is stated against. *)
Class Producer (R : Runtime) := {
  RpcErrorPayload_SerializeToString : RpcErrorPayload -> bytes;
  zlib_compress : bytes -> bytes;
  ExceptionDetail_SerializeToString : ExceptionDetail -> bytes
}.

(** What protobuf and zlib guarantee of a value they produced. *)
Class ProducerLaws (R : Runtime) (P : Producer R) : Prop := {
  RpcErrorPayload_parse_serialize :
    forall p, RpcErrorPayload_FromString (RpcErrorPayload_SerializeToString p) = Some p;
  zlib_decompress_compress :
    forall b, zlib_decompress (zlib_compress b) = Some b;
  ExceptionDetail_parse_serialize :
    forall d, ExceptionDetail_FromString (ExceptionDetail_SerializeToString d) = Some d
}.

(** Python's truth test on an instance of a generated message class.  The
    class defines neither [__bool__] nor [__len__], so the default for
    objects applies and every instance is true, whatever its fields hold. *)
Definition message_truth {M : Type} (m : M) : bool := true.

(** ** The module *)

Definition _EXCEPTION_KEY : string := "__crpc_mse_300713958-bin".

Section Module_grpc_error_util.

Context {R : Runtime}.

(** The [for] loop of [to_exception_detail].  [error_info] is the local
    variable the loop assigns; [FromString] runs inside the loop, at each
    entry whose key compares equal, and its exception ends the loop. *)
Fixpoint scan_trailing_metadata (mds : list Metadatum)
    (error_info : option RpcErrorPayload) : outcome (option RpcErrorPayload) :=
  match mds with
  | [] => Return error_info
  | metadata :: rest =>
      if (key metadata =? _EXCEPTION_KEY)%string then
        parsed <- or_raise DecodeError (RpcErrorPayload_FromString (value metadata)) ;;
        scan_trailing_metadata rest (Some parsed)
      else scan_trailing_metadata rest error_info
  end.

(** [if error_info:] *)
Definition truth (error_info : option RpcErrorPayload) : bool :=
  match error_info with
  | None => false
  | Some m => message_truth m
  end.

Definition to_exception_detail (e : PyObject) : outcome (option ExceptionDetail) :=
  let error_info := None in
  match e with
  | Call_instance c =>
      error_info <- scan_trailing_metadata (trailing_metadata c) error_info ;;
      match error_info with
      | Some payload =>
          if truth error_info then
            data <- or_raise zlib_error (zlib_decompress (compressed_data payload)) ;;
            exception_detail <- or_raise DecodeError (ExceptionDetail_FromString data) ;;
            Return (Some exception_detail)
          else Return None
      | None => Return None
      end
  | _ => Return None
  end.

(** ** Vocabulary of the statements *)

(** An entry is under the fixed key. *)
Definition matches (m : Metadatum) : bool := (key m =? _EXCEPTION_KEY)%string.

(** The entries under the fixed key, in iteration order. *)
Definition matching (mds : list Metadatum) : list Metadatum := filter matches mds.

(** [m] is the last entry of [mds] under the fixed key. *)
Definition last_match (mds : list Metadatum) (m : Metadatum) : Prop :=
  exists before after,
    mds = before ++ m :: after /\ key m = _EXCEPTION_KEY /\
    Forall (fun x => key x <> _EXCEPTION_KEY) after.

(** Every entry under the fixed key that comes before the last one holds
    bytes that parse as an [RpcErrorPayload]. *)
Definition earlier_matches_parse (mds : list Metadatum) : Prop :=
  forall x, In x (removelast (matching mds)) ->
    RpcErrorPayload_FromString (value x) <> None.

(** Steps 5 to 8: inflate the blob of a payload and parse the result. *)
Definition decode_payload (p : RpcErrorPayload) : outcome (option ExceptionDetail) :=
  data <- or_raise zlib_error (zlib_decompress (compressed_data p)) ;;
  d <- or_raise DecodeError (ExceptionDetail_FromString data) ;;
  Return (Some d).

(** The decode of one entry's value: steps 4 to 8. *)
Definition decode_value (v : bytes) : outcome (option ExceptionDetail) :=
  p <- or_raise DecodeError (RpcErrorPayload_FromString v) ;;
  decode_payload p.

(** Parse a list of values in order; the first failure is the result. *)
Fixpoint parse_all (vs : list bytes) : option (list RpcErrorPayload) :=
  match vs with
  | [] => Some []
  | v :: rest =>
      match RpcErrorPayload_FromString v with
      | None => None
      | Some p =>
          match parse_all rest with
          | None => None
          | Some ps => Some (p :: ps)
          end
      end
  end.

(** The algorithm in the words of the specification: retain the value of
    the last entry under the key, then parse the retained bytes once. *)
Definition retained_value (mds : list Metadatum) : option bytes :=
  fold_left (fun kept m => if matches m then Some (value m) else kept) mds None.

Definition extract_as_specified (e : PyObject) : outcome (option ExceptionDetail) :=
  match e with
  | Call_instance c =>
      match retained_value (trailing_metadata c) with
      | None => Return None
      | Some v => decode_value v
      end
  | _ => Return None
  end.

(** Two arguments that the function cannot tell apart: both lack the
    [grpc.Call] interface, or both have it with the same trailing entries
    in the same order. *)
Definition same_input (e1 e2 : PyObject) : Prop :=
  match e1, e2 with
  | Call_instance c1, Call_instance c2 => trailing_metadata c1 = trailing_metadata c2
  | Call_instance _, _ => False
  | _, Call_instance _ => False
  | _, _ => True
  end.

(** The call [c] with other trailing metadata. *)
Definition with_trailing_metadata (c : Call) (mds : list Metadatum) : Call :=
  {| initial_metadata := initial_metadata c;
     trailing_metadata := mds;
     code := code c;
     details := details c |}.

End Module_grpc_error_util.

(** ** A miniature runtime

    A small, executable instance of [Runtime] on which the model runs on
    concrete metadata.  It stands for the libraries only as far as the
    examples below need: one tag byte in place of the protobuf wire format
    and a two-byte header in place of a deflate stream.  As with protobuf,
    the empty byte string parses to the message with every field at its
    default; as with zlib, the empty byte string is not a stream. *)

Record mini_payload := { mini_compressed_data : bytes }.

Record mini_detail := { mini_message : string }.

Definition mini_payload_parse (b : bytes) : option mini_payload :=
  match b with
  | [] => Some {| mini_compressed_data := [] |}
  | x0a :: blob => Some {| mini_compressed_data := blob |}
  | _ => None
  end.

Definition mini_payload_serialize (p : mini_payload) : bytes :=
  x0a :: mini_compressed_data p.

Definition mini_inflate (b : bytes) : option bytes :=
  match b with
  | x78 :: x9c :: data => Some data
  | _ => None
  end.

Definition mini_deflate (b : bytes) : bytes := x78 :: x9c :: b.

Definition mini_detail_parse (b : bytes) : option mini_detail :=
  match b with
  | [] => Some {| mini_message := "" |}
  | x12 :: text => Some {| mini_message := string_of_list_byte text |}
  | _ => None
  end.

Definition mini_detail_serialize (d : mini_detail) : bytes :=
  x12 :: list_byte_of_string (mini_message d).

Definition mini_runtime : Runtime := {|
  RpcErrorPayload := mini_payload;
  ExceptionDetail := mini_detail;
  RpcErrorPayload_FromString := mini_payload_parse;
  compressed_data := mini_compressed_data;
  zlib_decompress := mini_inflate;
  ExceptionDetail_FromString := mini_detail_parse
|}.

Definition mini_producer : Producer mini_runtime :=
  @Build_Producer mini_runtime
    mini_payload_serialize mini_deflate mini_detail_serialize.

(** What the error-producing side attaches for a given detail. *)
Definition mini_encode (d : mini_detail) : bytes :=
  mini_payload_serialize
    {| mini_compressed_data := mini_deflate (mini_detail_serialize d) |}.

Definition boom : mini_detail := {| mini_message := "boom" |}.
Definition bang : mini_detail := {| mini_message := "bang" |}.

(** Entries used in the examples. *)
Definition entry_boom : Metadatum := mkMetadatum _EXCEPTION_KEY (mini_encode boom).
Definition entry_bang : Metadatum := mkMetadatum _EXCEPTION_KEY (mini_encode bang).
(** bytes that are no payload *)
Definition entry_garbage : Metadatum := mkMetadatum _EXCEPTION_KEY [xff; xfe; x00].
(** a payload whose blob lost all but its first byte *)
Definition entry_truncated : Metadatum := mkMetadatum _EXCEPTION_KEY [x0a; x78].
(** the empty value: the payload with every field at its default *)
Definition entry_empty : Metadatum := mkMetadatum _EXCEPTION_KEY [].
Definition entry_content_type : Metadatum :=
  mkMetadatum "content-type" (list_byte_of_string "application/grpc").
(** keys that miss the constant by case, by a prefix, by a suffix, by one
    character *)
Definition entry_upper : Metadatum :=
  mkMetadatum "__CRPC_MSE_300713958-BIN" [xff].
Definition entry_prefixed : Metadatum :=
  mkMetadatum "x__crpc_mse_300713958-bin" [xff].
Definition entry_suffixed : Metadatum :=
  mkMetadatum "__crpc_mse_300713958-bin2" [xff].
Definition entry_near : Metadatum :=
  mkMetadatum "__crpc_mse_300713959-bin" (mini_encode bang).

Definition failed_call (mds : list Metadatum) : Call :=
  mkCall [] mds UNKNOWN "Exception calling application".

(** ** Vocabulary of the further properties *)

Section Further_vocabulary.

Context {R : Runtime}.

(** Every entry under the fixed key, the last one included, holds bytes
    that parse as an [RpcErrorPayload]. *)
Definition all_matches_parse (mds : list Metadatum) : Prop :=
  forall x, In x (matching mds) -> RpcErrorPayload_FromString (value x) <> None.

End Further_vocabulary.

(** a payload whose blob inflates to bytes that are no detail *)
Definition entry_bad_detail : Metadatum :=
  mkMetadatum _EXCEPTION_KEY [x0a; x78; x9c; xff].

(** ** The function on a heap

    [to_exception_detail] once more, with the objects the caller holds kept
    in a heap and the argument a reference into it, so that a write to one
    of those objects would show in the heap the call leaves behind. *)

Definition ref := nat.

(** The caller's objects, by address. *)
Definition heap := list PyObject.

(** A computation that may read and write the heap and that returns or
    raises; the heap it leaves is part of its result. *)
Definition stateful (A : Type) : Type := heap -> outcome A * heap.

Definition unit_st {A : Type} (a : A) : stateful A := fun h => (Return a, h).

(** A library call that touches no object of the heap. *)
Definition lift {A : Type} (o : outcome A) : stateful A := fun h => (o, h).

Definition bind_st {A B : Type} (c : stateful A) (k : A -> stateful B) : stateful B :=
  fun h =>
    match c h with
    | (Return a, h') => k a h'
    | (Raise x, h') => (Raise x, h')
    end.

Notation "x <~ c ;; k" := (bind_st c (fun x => k))
  (at level 61, c at next level, right associativity).

(** Reading the object behind a reference. *)
Definition deref (r : ref) : stateful (option PyObject) :=
  fun h => (Return (nth_error h r), h).

(** Writing an object: the effect the heap is there to record. *)
Definition assign (r : ref) (o : PyObject) : stateful unit :=
  fun h => (Return tt, firstn r h ++ o :: skipn (S r) h).

Section Module_on_heap.

Context {R : Runtime}.

(** The [for] loop, over the sequence that [e.trailing_metadata()]
    returned. *)
Fixpoint scan_trailing_metadata_on (mds : list Metadatum)
    (error_info : option RpcErrorPayload) : stateful (option RpcErrorPayload) :=
  match mds with
  | [] => unit_st error_info
  | metadata :: rest =>
      if (key metadata =? _EXCEPTION_KEY)%string then
        parsed <~ lift (or_raise DecodeError
                          (RpcErrorPayload_FromString (value metadata))) ;;
        scan_trailing_metadata_on rest (Some parsed)
      else scan_trailing_metadata_on rest error_info
  end.

(** The function, called with a reference [e].  A reference names a live
    object; the last branch also takes in the objects that are no
    [grpc.Call]. *)
Definition to_exception_detail_on (e : ref) : stateful (option ExceptionDetail) :=
  let error_info := None in
  o <~ deref e ;;
  match o with
  | Some (Call_instance c) =>
      error_info <~ scan_trailing_metadata_on (trailing_metadata c) error_info ;;
      match error_info with
      | Some payload =>
          if truth error_info then
            data <~ lift (or_raise zlib_error
                            (zlib_decompress (compressed_data payload))) ;;
            exception_detail <~ lift (or_raise DecodeError
                                        (ExceptionDetail_FromString data)) ;;
            unit_st (Some exception_detail)
          else unit_st None
      | None => unit_st None
      end
  | _ => unit_st None
  end.

End Module_on_heap.

(** Two heaps for the examples: the same trailing metadata behind
    different references, among different objects, with different status
    code, details and initial metadata. *)
Definition heap_one : heap :=
  [ RpcError_instance ["connection reset"%string];
    Call_instance (mkCall [] [entry_content_type; entry_boom] UNKNOWN "first") ].

Definition heap_two : heap :=
  [ Call_instance (mkCall [entry_content_type] [entry_content_type; entry_boom]
                     INTERNAL "second");
    other_instance "ValueError()" ].

(** ** Proof steps used throughout *)

Ltac unfold_outcome := unfold bind, or_raise in *.

Ltac case_parse :=
  match goal with
  | |- context [RpcErrorPayload_FromString ?v] =>
      let E := fresh "Eparse" in
      destruct (RpcErrorPayload_FromString v) eqn:E
  end.

(** On concrete metadata: [m] is the last match of a list given as
    [before ++ m :: after]; the matches before the last all parse. *)
Ltac solve_last_match before after :=
  exists before, after; split; [reflexivity | split; [reflexivity |]];
  repeat constructor; discriminate.

Ltac solve_earlier_parse :=
  let x := fresh "x" in
  let Hx := fresh "Hx" in
  intros x Hx; vm_compute in Hx;
  repeat (destruct Hx as [Hx | Hx]; [subst x; vm_compute; discriminate |]);
  contradiction.

(** ** The key comparison *)

Lemma matches_true (m : Metadatum) : matches m = true <-> key m = _EXCEPTION_KEY.
Proof. unfold matches. apply String.eqb_eq. Qed.

Lemma matches_false (m : Metadatum) : matches m = false <-> key m <> _EXCEPTION_KEY.
Proof. unfold matches. apply String.eqb_neq. Qed.

Lemma matching_app (l1 l2 : list Metadatum) :
  matching (l1 ++ l2) = matching l1 ++ matching l2.
Proof. apply filter_app. Qed.

Lemma matching_none (l : list Metadatum) :
  Forall (fun x => key x <> _EXCEPTION_KEY) l -> matching l = [].
Proof.
  induction 1 as [|x l Hx _ IH]; simpl; [reflexivity|].
  apply matches_false in Hx. now rewrite Hx.
Qed.

Lemma matching_drop (l1 l2 : list Metadatum) (m : Metadatum) :
  key m <> _EXCEPTION_KEY -> matching (l1 ++ m :: l2) = matching (l1 ++ l2).
Proof.
  intros Hm. rewrite !matching_app. simpl.
  apply matches_false in Hm. now rewrite Hm.
Qed.

Lemma last_match_matching (mds : list Metadatum) (m : Metadatum) :
  last_match mds m ->
  matching mds = removelast (matching mds) ++ [m].
Proof.
  intros (before & after & -> & Hkey & Hafter).
  rewrite matching_app. simpl.
  apply matches_true in Hkey. rewrite Hkey.
  rewrite (matching_none Hafter).
  now rewrite removelast_last.
Qed.

Lemma single_match (mds : list Metadatum) (m : Metadatum) :
  length (matching mds) = 1 -> In m mds -> key m = _EXCEPTION_KEY ->
  matching mds = [m].
Proof.
  intros Hlen Hin Hkey.
  assert (Hm : In m (matching mds)).
  { apply filter_In. split; [assumption | now apply matches_true]. }
  destruct (matching mds) as [|x [|y l]]; simpl in Hlen; try discriminate.
  destruct Hm as [-> | []]. reflexivity.
Qed.

(** The last element of a list that has one does not depend on the
    default. *)
Lemma last_nonempty {A : Type} (x : A) (l : list A) (d d' : A) :
  last (x :: l) d = last (x :: l) d'.
Proof.
  revert x. induction l as [|y l IH]; intros x; [reflexivity|].
  change (last (y :: l) d = last (y :: l) d'). apply IH.
Qed.

Lemma last_from_head {A : Type} (x : A) (l : list A) (d : A) :
  last (x :: l) d = last l x.
Proof.
  destruct l as [|y l]; [reflexivity|].
  change (last (y :: l) d = last (y :: l) x). apply last_nonempty.
Qed.

Lemma exists_last_or_nil {A : Type} (l : list A) :
  l = [] \/ exists l' a, l = l' ++ [a].
Proof.
  destruct l as [|x l]; [now left | right].
  destruct (@exists_last _ (x :: l)) as (l' & a & E); [discriminate|].
  now exists l', a.
Qed.

Section Loop.

Context {R : Runtime}.

(** ** The loop *)

(** The loop sees only the entries under the key. *)
Lemma scan_matching (mds : list Metadatum) (acc : option RpcErrorPayload) :
  scan_trailing_metadata mds acc = scan_trailing_metadata (matching mds) acc.
Proof.
  revert acc. induction mds as [|x mds IH]; intros acc; simpl; [reflexivity|].
  unfold matches. destruct (key x =? _EXCEPTION_KEY)%string eqn:E; simpl.
  - rewrite E. unfold_outcome. case_parse; [apply IH | reflexivity].
  - apply IH.
Qed.

(** On a list of entries all under the key, the loop parses one after the
    other and keeps the last payload. *)
Lemma scan_all_matching (l : list Metadatum) (acc : option RpcErrorPayload) :
  Forall (fun x => matches x = true) l ->
  scan_trailing_metadata l acc =
  match parse_all (map value l) with
  | None => Raise DecodeError
  | Some ps => Return (last (map Some ps) acc)
  end.
Proof.
  intros H. revert acc. induction H as [|x l Hx _ IH]; intros acc; simpl; [reflexivity|].
  unfold matches in Hx. rewrite Hx. unfold_outcome.
  case_parse; [|reflexivity].
  rewrite IH. destruct (parse_all (map value l)) as [ps|]; [|reflexivity].
  f_equal. destruct ps as [|q ps]; [reflexivity|].
  simpl map.
  change (last (Some q :: map Some ps) (Some r) = last (Some q :: map Some ps) acc).
  apply last_nonempty.
Qed.

Lemma matching_all_match (mds : list Metadatum) :
  Forall (fun x => matches x = true) (matching mds).
Proof. apply Forall_forall. intros x Hx. now apply filter_In in Hx. Qed.

Lemma scan_parse_all (mds : list Metadatum) (acc : option RpcErrorPayload) :
  scan_trailing_metadata mds acc =
  match parse_all (map value (matching mds)) with
  | None => Raise DecodeError
  | Some ps => Return (last (map Some ps) acc)
  end.
Proof.
  rewrite scan_matching. apply scan_all_matching, matching_all_match.
Qed.

Lemma parse_all_app (l1 l2 : list bytes) :
  parse_all (l1 ++ l2) =
  match parse_all l1 with
  | None => None
  | Some ps1 =>
      match parse_all l2 with
      | None => None
      | Some ps2 => Some (ps1 ++ ps2)
      end
  end.
Proof.
  induction l1 as [|v l1 IH]; simpl.
  - now destruct (parse_all l2).
  - case_parse; [|reflexivity]. rewrite IH.
    destruct (parse_all l1); [|reflexivity]. now destruct (parse_all l2).
Qed.

Lemma parse_all_total (l : list Metadatum) :
  (forall x, In x l -> RpcErrorPayload_FromString (value x) <> None) ->
  exists ps, parse_all (map value l) = Some ps.
Proof.
  induction l as [|x l IH]; intros H; simpl.
  - now exists [].
  - case_parse.
    + destruct IH as [ps Hps]; [intros y Hy; apply H; now right|].
      rewrite Hps. eauto.
    + exfalso. apply (H x); [now left | assumption].
Qed.

Lemma parse_all_failure (l : list Metadatum) (m : Metadatum) :
  In m l -> RpcErrorPayload_FromString (value m) = None ->
  parse_all (map value l) = None.
Proof.
  induction l as [|x l IH]; intros Hin Hm; simpl; [contradiction|].
  destruct Hin as [-> | Hin].
  - now rewrite Hm.
  - case_parse; [|reflexivity]. now rewrite IH.
Qed.

(** With every earlier match parsing, the loop ends with the parse of the
    last match, or with its failure. *)
Lemma scan_last_match (mds : list Metadatum) (m : Metadatum)
    (acc : option RpcErrorPayload) :
  last_match mds m -> earlier_matches_parse mds ->
  scan_trailing_metadata mds acc =
  (p <- or_raise DecodeError (RpcErrorPayload_FromString (value m)) ;; Return (Some p)).
Proof.
  intros Hlast Hearlier. rewrite scan_parse_all.
  rewrite (last_match_matching Hlast), map_app, parse_all_app.
  destruct (parse_all_total _ Hearlier) as [ps ->]. simpl.
  unfold_outcome. case_parse; [|reflexivity].
  rewrite map_app. simpl map. now rewrite last_last.
Qed.

(** ** After the loop *)

Lemma to_exception_detail_Call (c : Call) :
  to_exception_detail (Call_instance c) =
  (error_info <- scan_trailing_metadata (trailing_metadata c) None ;;
   match error_info with
   | Some p => decode_payload p
   | None => Return None
   end).
Proof.
  unfold to_exception_detail, bind.
  now destruct (scan_trailing_metadata (trailing_metadata c) None) as [[p|]|x].
Qed.

Lemma decode_payload_not_absent (p : RpcErrorPayload) :
  decode_payload p <> Return None.
Proof.
  unfold decode_payload. unfold_outcome.
  destruct (zlib_decompress (compressed_data p)); [|discriminate].
  destruct (ExceptionDetail_FromString b); discriminate.
Qed.

Lemma to_exception_detail_last_match (c : Call) (m : Metadatum) :
  last_match (trailing_metadata c) m ->
  earlier_matches_parse (trailing_metadata c) ->
  to_exception_detail (Call_instance c) = decode_value (value m).
Proof.
  intros Hlast Hearlier.
  rewrite to_exception_detail_Call, (scan_last_match None Hlast Hearlier).
  unfold decode_value. unfold_outcome. now case_parse.
Qed.

(** ** The algorithm as the specification words it *)

Lemma retained_value_from (mds : list Metadatum) (kept : option bytes) :
  fold_left (fun kept m => if matches m then Some (value m) else kept) mds kept =
  last (map (fun m => Some (value m)) (matching mds)) kept.
Proof.
  revert kept. induction mds as [|x mds IH]; intros kept; simpl; [reflexivity|].
  rewrite IH. destruct (matches x); [|reflexivity].
  simpl map. now rewrite last_from_head.
Qed.

(** The two agree on every argument whose entries under the key all parse;
    they part only where an entry before the last match is malformed. *)
Lemma agrees_with_specification (e : PyObject) :
  (forall c, e = Call_instance c ->
     forall x, In x (matching (trailing_metadata c)) ->
       RpcErrorPayload_FromString (value x) <> None) ->
  to_exception_detail e = extract_as_specified e.
Proof.
  destruct e as [a|c|r]; intros H; try reflexivity.
  specialize (H c eq_refl).
  rewrite to_exception_detail_Call, scan_parse_all.
  unfold extract_as_specified, retained_value. rewrite retained_value_from.
  destruct (exists_last_or_nil (matching (trailing_metadata c))) as [-> | (l & m & E)];
    [reflexivity|].
  rewrite E in *. rewrite map_app, parse_all_app.
  destruct (@parse_all_total l) as [ps ->]; [intros x Hx; apply H, in_or_app; now left|].
  rewrite map_app. simpl. rewrite last_last.
  unfold decode_value. unfold_outcome. case_parse.
  - rewrite map_app. simpl map. now rewrite last_last.
  - reflexivity.
Qed.

End Loop.

(** ** Properties of [to_exception_detail] *)

Section Properties.

Context {R : Runtime}.

(** C2. An argument that is not an instance of [grpc.Call], and so has no
    trailing metadata to offer, makes the function return [None]; nothing
    is raised. *)
Theorem no_metadata_capability_absent (e : PyObject) :
  isinstance_Call e = false ->
  to_exception_detail e = Return None.
Proof.
  destruct e; simpl; intros H; [reflexivity | discriminate | reflexivity].
Qed.

(** C3. A call whose trailing metadata has no entry with the key
    ['__crpc_mse_300713958-bin'] makes the function return [None]. *)
Theorem no_matching_key_absent (c : Call) :
  (forall m, In m (trailing_metadata c) -> key m <> _EXCEPTION_KEY) ->
  to_exception_detail (Call_instance c) = Return None.
Proof.
  intros H.
  rewrite to_exception_detail_Call, scan_matching.
  rewrite matching_none; [reflexivity|].
  now apply Forall_forall.
Qed.

(** C4, as amended.  With two or more entries under the key, provided the
    value of every matching entry before the last parses as an
    [RpcErrorPayload], the result is the decode of the last matching entry
    in iteration order: the payloads parsed from the earlier entries are
    overwritten and do not enter the result. *)
Theorem last_match_wins (c : Call) (m : Metadatum) :
  last_match (trailing_metadata c) m ->
  earlier_matches_parse (trailing_metadata c) ->
  to_exception_detail (Call_instance c) = decode_value (value m).
Proof. apply to_exception_detail_last_match. Qed.

(** C5, as amended.  The value of every entry under the key is parsed, in
    iteration order, as the loop meets it.  The first value that does not
    parse ends the call with a decode failure, whatever follows it; when
    all of them parse, the payload of the last one is kept and decoded,
    and with no entry under the key the result is [None]. *)
Theorem every_match_is_parsed (c : Call) :
  to_exception_detail (Call_instance c) =
  match parse_all (map value (matching (trailing_metadata c))) with
  | None => Raise DecodeError
  | Some ps =>
      match last (map Some ps) None with
      | Some p => decode_payload p
      | None => Return None
      end
  end.
Proof.
  rewrite to_exception_detail_Call, scan_parse_all.
  now destruct (parse_all (map value (matching (trailing_metadata c)))).
Qed.

(** C6. A call with an entry under the key whose value does not parse as
    an [RpcErrorPayload] makes the function raise the decode failure; it
    does not return [None]. *)
Theorem malformed_payload_propagates (c : Call) (m : Metadatum) :
  In m (trailing_metadata c) ->
  key m = _EXCEPTION_KEY ->
  RpcErrorPayload_FromString (value m) = None ->
  to_exception_detail (Call_instance c) = Raise DecodeError.
Proof.
  intros Hin Hkey Hbad.
  rewrite to_exception_detail_Call, scan_parse_all.
  rewrite (@parse_all_failure _ (matching (trailing_metadata c)) m); [reflexivity | | assumption].
  apply filter_In. split; [assumption | now apply matches_true].
Qed.

(** C7. When the entries under the key parse as [RpcErrorPayload] and the
    blob inside the operative (last) one is not a zlib stream, the function
    raises the decompression failure; it does not return [None]. *)
Theorem corrupt_blob_propagates (c : Call) (m : Metadatum) (p : RpcErrorPayload) :
  last_match (trailing_metadata c) m ->
  earlier_matches_parse (trailing_metadata c) ->
  RpcErrorPayload_FromString (value m) = Some p ->
  zlib_decompress (compressed_data p) = None ->
  to_exception_detail (Call_instance c) = Raise zlib_error.
Proof.
  intros Hlast Hearlier Hp Hblob.
  rewrite (to_exception_detail_last_match _ Hlast Hearlier).
  unfold decode_value, decode_payload. unfold_outcome.
  now rewrite Hp, Hblob.
Qed.

(** The outcome is read off what the argument shows through the
    [grpc.Call] interface: two arguments that both lack it, or that both
    have it with the same trailing entries in the same order, give the same
    returned value or the same exception, whatever else differs between
    them (status code, details, initial metadata, the arguments of a plain
    error). *)
Theorem same_input_same_outcome (e1 e2 : PyObject) :
  same_input e1 e2 ->
  to_exception_detail e1 = to_exception_detail e2.
Proof.
  destruct e1 as [a1|c1|r1], e2 as [a2|c2|r2]; simpl; intros H;
    try contradiction; try reflexivity.
  change (to_exception_detail (Call_instance c1) = to_exception_detail (Call_instance c2)).
  now rewrite !to_exception_detail_Call, H.
Qed.

(** C9. The key comparison is exact: an entry whose key is any string other
    than ['__crpc_mse_300713958-bin'] is not a match, and taking it out of
    the trailing metadata, wherever it stands and whatever its value,
    leaves the outcome as it was. *)
Theorem other_keys_are_ignored (c : Call) (before after : list Metadatum) (m : Metadatum) :
  trailing_metadata c = before ++ m :: after ->
  key m <> _EXCEPTION_KEY ->
  matches m = false /\
  to_exception_detail (Call_instance c) =
  to_exception_detail (Call_instance (with_trailing_metadata c (before ++ after))).
Proof.
  intros Hmds Hkey. split; [now apply matches_false|].
  rewrite !to_exception_detail_Call. simpl trailing_metadata.
  rewrite Hmds, scan_matching, (@matching_drop before after m Hkey), <- scan_matching.
  reflexivity.
Qed.

(** C10, as amended.  When the value of the last entry under the key parses
    to a payload, be it the payload with every field at its default that
    the empty byte string parses to, the function never returns [None],
    whatever the earlier entries hold.  When in addition the value of every
    entry under the key before the last parses, the function does inflate
    the blob of that payload and parse the result: its outcome is exactly
    the outcome of those two steps, a returned detail or a propagated
    failure, so a blob that the decompressor rejects makes the
    decompression failure propagate. *)
Theorem parsed_payload_is_always_decoded (c : Call) (m : Metadatum) (p : RpcErrorPayload) :
  last_match (trailing_metadata c) m ->
  RpcErrorPayload_FromString (value m) = Some p ->
  to_exception_detail (Call_instance c) <> Return None /\
  (earlier_matches_parse (trailing_metadata c) ->
     to_exception_detail (Call_instance c) = decode_payload p /\
     (zlib_decompress (compressed_data p) = None ->
        to_exception_detail (Call_instance c) = Raise zlib_error)).
Proof.
  intros Hlast Hp. split.
  - rewrite to_exception_detail_Call, scan_parse_all.
    rewrite (last_match_matching Hlast), map_app, parse_all_app.
    destruct (parse_all (map value (removelast (matching (trailing_metadata c)))))
      as [ps|]; [|discriminate].
    simpl. rewrite Hp, map_app. simpl map. rewrite last_last. simpl.
    apply decode_payload_not_absent.
  - intros Hearlier.
    rewrite (to_exception_detail_last_match _ Hlast Hearlier).
    unfold decode_value. unfold_outcome. rewrite Hp.
    split; [reflexivity|].
    intros Hblob. unfold decode_payload. unfold_outcome. now rewrite Hblob.
Qed.

Section RoundTrip.

Context {P : Producer R} (laws : ProducerLaws P).

(** C1. Encode, compress, embed, extract is the identity: when the trailing
    metadata has exactly one entry under the key, its value is the
    serialization of a payload [p], and the blob of [p] is the compression
    of the serialization of a detail [d], the function returns [d]. *)
Theorem roundtrip_single_entry (c : Call) (m : Metadatum)
    (p : RpcErrorPayload) (d : ExceptionDetail) :
  length (matching (trailing_metadata c)) = 1 ->
  In m (trailing_metadata c) ->
  key m = _EXCEPTION_KEY ->
  value m = RpcErrorPayload_SerializeToString p ->
  compressed_data p = zlib_compress (ExceptionDetail_SerializeToString d) ->
  to_exception_detail (Call_instance c) = Return (Some d).
Proof.
  intros Hone Hin Hkey Hvalue Hblob.
  rewrite to_exception_detail_Call, scan_matching, (@single_match _ m Hone Hin Hkey).
  simpl. rewrite Hkey. simpl.
  rewrite Hvalue, RpcErrorPayload_parse_serialize. simpl.
  unfold decode_payload.
  rewrite Hblob, zlib_decompress_compress. simpl.
  now rewrite ExceptionDetail_parse_serialize.
Qed.

End RoundTrip.

End Properties.

(** ** The model at work on the miniature runtime *)

#[local] Existing Instance mini_runtime.
#[local] Existing Instance mini_producer.

Lemma mini_producer_laws : ProducerLaws mini_producer.
Proof.
  split.
  - intros [blob]. reflexivity.
  - intros b. reflexivity.
  - intros [text]. simpl. unfold mini_detail_serialize, mini_detail_parse. simpl.
    now rewrite string_of_list_byte_of_string.
Qed.

(** The scenario of the specification: a detail with message "boom",
    serialized, compressed, wrapped, serialized and attached under the key,
    comes back with message "boom". *)
Example boom_scenario :
  to_exception_detail (Call_instance (failed_call [entry_content_type; entry_boom]))
  = Return (Some boom).
Proof. reflexivity. Qed.

Example near_miss_keys_do_not_match :
  map matches [entry_upper; entry_prefixed; entry_suffixed; entry_near; entry_boom]
  = [false; false; false; false; true].
Proof. reflexivity. Qed.

(** Witness of C1: the one entry under the key, among others, carries
    the encoding of [boom]. *)
Lemma roundtrip_single_entry_witness :
  length (matching [entry_content_type; entry_boom; entry_near]) = 1 /\
  to_exception_detail
    (Call_instance (failed_call [entry_content_type; entry_boom; entry_near]))
  = Return (Some boom).
Proof.
  split; [reflexivity|].
  apply (@roundtrip_single_entry mini_runtime mini_producer mini_producer_laws
           (failed_call [entry_content_type; entry_boom; entry_near]) entry_boom
           {| mini_compressed_data := mini_deflate (mini_detail_serialize boom) |} boom).
  - reflexivity.
  - simpl. right. left. reflexivity.
  - reflexivity.
  - reflexivity.
  - reflexivity.
Defined.

(** Witness of C2: a plain [grpc.RpcError]. *)
Lemma no_metadata_capability_absent_witness :
  isinstance_Call (RpcError_instance ["connection reset"%string]) = false /\
  to_exception_detail (RpcError_instance ["connection reset"%string]) = Return None.
Proof.
  split; [reflexivity|].
  apply (@no_metadata_capability_absent mini_runtime). reflexivity.
Defined.

(** Witness of C3: only near misses of the key. *)
Lemma no_matching_key_absent_witness :
  to_exception_detail
    (Call_instance (failed_call
       [entry_content_type; entry_upper; entry_prefixed; entry_suffixed; entry_near]))
  = Return None.
Proof.
  apply (@no_matching_key_absent mini_runtime).
  intros m Hm. simpl in Hm.
  repeat (destruct Hm as [Hm | Hm]; [subst m; discriminate |]).
  contradiction.
Defined.

(** Witness of C4: two entries under the key, both well formed; the
    second one is decoded. *)
Lemma last_match_wins_witness :
  to_exception_detail
    (Call_instance (failed_call [entry_boom; entry_content_type; entry_bang]))
  = Return (Some bang).
Proof.
  change (Return (Some bang)) with (decode_value (value entry_bang)).
  apply (@last_match_wins mini_runtime).
  - solve_last_match [entry_boom; entry_content_type] (@nil Metadatum).
  - solve_earlier_parse.
Defined.

(** C4 as stated fails: the last entry under the key decodes to [bang],
    yet an earlier entry under the key, whose bytes are no payload, decides
    the outcome. *)
Lemma earlier_match_decides :
  last_match [entry_boom; entry_garbage; entry_content_type; entry_bang] entry_bang /\
  decode_value (value entry_bang) = Return (Some bang) /\
  to_exception_detail
    (Call_instance (failed_call
       [entry_boom; entry_garbage; entry_content_type; entry_bang]))
  = Raise DecodeError /\
  to_exception_detail
    (Call_instance (failed_call
       [entry_boom; entry_garbage; entry_content_type; entry_bang]))
  <> decode_value (value entry_bang).
Proof.
  split; [|split; [|split]]; try reflexivity; try discriminate.
  solve_last_match [entry_boom; entry_garbage; entry_content_type] (@nil Metadatum).
Qed.

(** C5 as stated fails: a malformed value under an earlier duplicate of
    the key, followed by a well-formed last duplicate, ends in the parse
    failure.  Parsing the retained bytes once, after the scan, would have
    returned [boom]. *)
Lemma malformed_earlier_duplicate_raises :
  RpcErrorPayload_FromString (value entry_garbage) = None /\
  decode_value (value entry_boom) = Return (Some boom) /\
  extract_as_specified (Call_instance (failed_call [entry_garbage; entry_boom]))
  = Return (Some boom) /\
  to_exception_detail (Call_instance (failed_call [entry_garbage; entry_boom]))
  = Raise DecodeError /\
  to_exception_detail (Call_instance (failed_call [entry_garbage; entry_boom]))
  <> decode_value (value entry_boom).
Proof. repeat split. discriminate. Qed.

(** Witness of C6: random bytes under the key. *)
Lemma malformed_payload_propagates_witness :
  to_exception_detail (Call_instance (failed_call [entry_content_type; entry_garbage]))
  = Raise DecodeError.
Proof.
  apply (@malformed_payload_propagates mini_runtime
           (failed_call [entry_content_type; entry_garbage]) entry_garbage).
  - simpl. right. left. reflexivity.
  - reflexivity.
  - reflexivity.
Defined.

(** Witness of C7: a payload whose blob was cut after its first byte. *)
Lemma corrupt_blob_propagates_witness :
  to_exception_detail (Call_instance (failed_call [entry_truncated; entry_content_type]))
  = Raise zlib_error.
Proof.
  apply (@corrupt_blob_propagates mini_runtime
           (failed_call [entry_truncated; entry_content_type]) entry_truncated
           {| mini_compressed_data := [x78] |}).
  - solve_last_match (@nil Metadatum) [entry_content_type].
  - solve_earlier_parse.
  - reflexivity.
  - reflexivity.
Defined.

(** Two calls that differ in status code, details and initial metadata
    but carry the same trailing metadata. *)
Lemma same_input_same_outcome_witness :
  to_exception_detail
    (Call_instance (mkCall [] [entry_content_type; entry_boom] UNKNOWN "first"))
  = to_exception_detail
    (Call_instance (mkCall [entry_content_type] [entry_content_type; entry_boom]
                      INTERNAL "second")).
Proof.
  apply (@same_input_same_outcome mini_runtime). reflexivity.
Defined.

(** Witness of C9: the key in upper case, holding bytes that are no
    payload, between two other entries. *)
Lemma other_keys_are_ignored_witness :
  matches entry_upper = false /\
  to_exception_detail
    (Call_instance (failed_call [entry_content_type; entry_upper; entry_boom]))
  = to_exception_detail
    (Call_instance (with_trailing_metadata
       (failed_call [entry_content_type; entry_upper; entry_boom])
       ([entry_content_type] ++ [entry_boom]))).
Proof.
  apply (@other_keys_are_ignored mini_runtime
           (failed_call [entry_content_type; entry_upper; entry_boom])
           [entry_content_type] [entry_boom] entry_upper).
  - reflexivity.
  - discriminate.
Defined.

(** Witness of C10 as amended: after a well-formed entry, the empty value
    under the key parses to the default payload, whose empty blob is then
    handed to the decompressor. *)
Lemma parsed_payload_is_always_decoded_witness :
  to_exception_detail (Call_instance (failed_call [entry_boom; entry_empty]))
  <> Return None /\
  to_exception_detail (Call_instance (failed_call [entry_boom; entry_empty]))
  = decode_payload {| mini_compressed_data := [] |} /\
  to_exception_detail (Call_instance (failed_call [entry_boom; entry_empty]))
  = Raise zlib_error.
Proof.
  destruct (@parsed_payload_is_always_decoded mini_runtime
              (failed_call [entry_boom; entry_empty]) entry_empty
              {| mini_compressed_data := [] |}) as [Hnever Hdecoded].
  - solve_last_match [entry_boom] (@nil Metadatum).
  - reflexivity.
  - split; [exact Hnever|].
    destruct Hdecoded as [Hsame Hfails]; [solve_earlier_parse|].
    split; [exact Hsame | apply Hfails; reflexivity].
Defined.

(** C10 as stated fails: the last entry under the key holds the empty byte
    string, which parses to the default payload; the function does not
    return [None] but raises the decompression failure. *)
Lemma default_payload_is_decompressed :
  RpcErrorPayload_FromString (value entry_empty) = Some {| mini_compressed_data := [] |} /\
  to_exception_detail (Call_instance (failed_call [entry_content_type; entry_empty]))
  = Raise zlib_error /\
  to_exception_detail (Call_instance (failed_call [entry_content_type; entry_empty]))
  <> Return None.
Proof. repeat split. discriminate. Qed.

(** ** What each outcome tells the caller *)

Section Outcomes.

Context {R : Runtime}.

Lemma last_match_or_none (mds : list Metadatum) :
  matching mds = [] \/ exists m, last_match mds m.
Proof.
  induction mds as [|x mds IH] using rev_ind; [now left|].
  destruct (matches x) eqn:Ex.
  - right. exists x, mds, []. repeat split; [now apply matches_true | constructor].
  - destruct IH as [IH | (m & before & after & -> & Hkey & Hafter)].
    + left. rewrite matching_app, IH. simpl. now rewrite Ex.
    + right. exists m, before, (after ++ [x]). repeat split.
      * now rewrite <- app_assoc.
      * assumption.
      * apply Forall_app. split; [assumption|].
        constructor; [now apply matches_false | constructor].
Qed.

Lemma last_match_in (mds : list Metadatum) (m : Metadatum) :
  last_match mds m -> In m (matching mds).
Proof.
  intros H. rewrite (last_match_matching H). apply in_or_app. right. now left.
Qed.

Lemma all_matches_parse_earlier (mds : list Metadatum) (m : Metadatum) :
  last_match mds m -> all_matches_parse mds -> earlier_matches_parse mds.
Proof.
  intros Hlast Hall x Hx. apply Hall.
  rewrite (last_match_matching Hlast). apply in_or_app. now left.
Qed.

Lemma parse_all_malformed (l : list Metadatum) :
  parse_all (map value l) = None ->
  exists x, In x l /\ RpcErrorPayload_FromString (value x) = None.
Proof.
  induction l as [|x l IH]; simpl; [discriminate|].
  case_parse.
  - destruct (parse_all (map value l)); [discriminate|].
    intros _. destruct IH as (y & Hy & Hbad); [reflexivity|].
    exists y. split; [now right | assumption].
  - intros _. exists x. split; [now left | assumption].
Qed.

Lemma parse_all_well_formed (l : list Metadatum) (ps : list RpcErrorPayload) :
  parse_all (map value l) = Some ps ->
  length ps = length l /\
  forall x, In x l -> RpcErrorPayload_FromString (value x) <> None.
Proof.
  revert ps. induction l as [|x l IH]; intros ps; simpl.
  - intros [= <-]. split; [reflexivity | contradiction].
  - case_parse; [|discriminate].
    destruct (parse_all (map value l)) as [qs|]; [|discriminate].
    intros [= <-]. destruct (IH qs eq_refl) as [Hlen Hall]. split.
    + simpl. now rewrite Hlen.
    + intros y [<- | Hy]; [congruence | now apply Hall].
Qed.

(** The three ways a call on a [grpc.Call] can go. *)
Lemma Call_cases (c : Call) :
  (matching (trailing_metadata c) = [] /\
   to_exception_detail (Call_instance c) = Return None) \/
  (exists x, In x (trailing_metadata c) /\ key x = _EXCEPTION_KEY /\
     RpcErrorPayload_FromString (value x) = None /\
     to_exception_detail (Call_instance c) = Raise DecodeError) \/
  (exists m p, last_match (trailing_metadata c) m /\
     all_matches_parse (trailing_metadata c) /\
     RpcErrorPayload_FromString (value m) = Some p /\
     to_exception_detail (Call_instance c) = decode_payload p).
Proof.
  destruct (last_match_or_none (trailing_metadata c)) as [Hnone | (m & Hlast)].
  - left. split; [assumption|].
    now rewrite to_exception_detail_Call, scan_matching, Hnone.
  - right.
    destruct (parse_all (map value (matching (trailing_metadata c)))) as [ps|] eqn:Eall.
    + right. apply parse_all_well_formed in Eall. destruct Eall as [_ Hall].
      destruct (RpcErrorPayload_FromString (value m)) as [p|] eqn:Ep;
        [|exfalso; apply (Hall m); [now apply last_match_in | assumption]].
      exists m, p. repeat split; try assumption.
      rewrite (to_exception_detail_last_match _ Hlast
                 (all_matches_parse_earlier Hlast Hall)).
      unfold decode_value. unfold_outcome. now rewrite Ep.
    + left. destruct (parse_all_malformed _ Eall) as (x & Hx & Hbad).
      apply filter_In in Hx. destruct Hx as [Hin Hkey].
      exists x. repeat split; [assumption | now apply matches_true | assumption |].
      now rewrite to_exception_detail_Call, scan_parse_all, Eall.
Qed.

Lemma decode_payload_cases (p : RpcErrorPayload) :
  (zlib_decompress (compressed_data p) = None /\
   decode_payload p = Raise zlib_error) \/
  (exists data, zlib_decompress (compressed_data p) = Some data /\
     ExceptionDetail_FromString data = None /\
     decode_payload p = Raise DecodeError) \/
  (exists data d, zlib_decompress (compressed_data p) = Some data /\
     ExceptionDetail_FromString data = Some d /\
     decode_payload p = Return (Some d)).
Proof.
  unfold decode_payload. unfold_outcome.
  destruct (zlib_decompress (compressed_data p)) as [data|]; [|now left].
  right. destruct (ExceptionDetail_FromString data) as [d|] eqn:Ed.
  - right. now exists data, d.
  - left. now exists data.
Qed.

End Outcomes.

(** ** Further properties of [to_exception_detail] *)

Section Further_properties.

Context {R : Runtime}.

(** X1. [None] is returned only when there was nothing to decode: the
    argument is not a [grpc.Call], or no trailing entry has the key.  A
    call that has an entry under the key never answers [None]. *)
Theorem absent_means_nothing_matched (e : PyObject) :
  to_exception_detail e = Return None ->
  isinstance_Call e = false \/
  exists c, e = Call_instance c /\
    forall m, In m (trailing_metadata c) -> key m <> _EXCEPTION_KEY.
Proof.
  destruct e as [a|c|r]; intros H; [now left | right | now left].
  exists c. split; [reflexivity|].
  destruct (Call_cases c) as [[Hnone _] | [(x & _ & _ & _ & Hx) | (m & p & _ & _ & _ & Hp)]].
  - intros m Hin Hkey.
    assert (Hm : In m (matching (trailing_metadata c)))
      by (apply filter_In; split; [assumption | now apply matches_true]).
    now rewrite Hnone in Hm.
  - congruence.
  - rewrite Hp in H. now apply decode_payload_not_absent in H.
Qed.

(** X2. When the entries under the key parse and the blob of the last one
    inflates to bytes that do not parse as an [ExceptionDetail], the decode
    failure of the second [FromString] leaves the function. *)
Theorem malformed_detail_propagates (c : Call) (m : Metadatum)
    (p : RpcErrorPayload) (data : bytes) :
  last_match (trailing_metadata c) m ->
  earlier_matches_parse (trailing_metadata c) ->
  RpcErrorPayload_FromString (value m) = Some p ->
  zlib_decompress (compressed_data p) = Some data ->
  ExceptionDetail_FromString data = None ->
  to_exception_detail (Call_instance c) = Raise DecodeError.
Proof.
  intros Hlast Hearlier Hp Hdata Hbad.
  rewrite (to_exception_detail_last_match _ Hlast Hearlier).
  unfold decode_value, decode_payload. unfold_outcome.
  now rewrite Hp, Hdata, Hbad.
Qed.

(** X3. A returned detail is the decode of the last entry under the key,
    and its being returned shows that every entry under the key parsed as a
    payload: the argument is a [grpc.Call], the last match parses to a
    payload whose blob inflates to bytes that parse to that detail. *)
Theorem returned_detail_comes_from_last_match (e : PyObject) (d : ExceptionDetail) :
  to_exception_detail e = Return (Some d) ->
  exists c m p data,
    e = Call_instance c /\
    last_match (trailing_metadata c) m /\
    all_matches_parse (trailing_metadata c) /\
    RpcErrorPayload_FromString (value m) = Some p /\
    zlib_decompress (compressed_data p) = Some data /\
    ExceptionDetail_FromString data = Some d.
Proof.
  destruct e as [a|c|r]; intros H; try discriminate.
  destruct (Call_cases c) as [[_ Hn] | [(x & _ & _ & _ & Hx) | (m & p & Hlast & Hall & Hp & Hd)]];
    try congruence.
  rewrite Hd in H.
  destruct (decode_payload_cases p)
    as [[_ Hz] | [(data & _ & _ & Hz) | (data & d' & Hdata & Hdetail & Hz)]];
    try congruence.
  exists c, m, p, data. repeat split; try assumption. congruence.
Qed.

(** X4. A decompression failure comes from the blob of the last entry
    under the key and from nowhere else: when [zlib.error] is raised, every
    entry under the key parsed as a payload and the blob of the last one is
    what [zlib.decompress] rejected. *)
Theorem decompression_failure_comes_from_last_blob (e : PyObject) :
  to_exception_detail e = Raise zlib_error ->
  exists c m p,
    e = Call_instance c /\
    last_match (trailing_metadata c) m /\
    all_matches_parse (trailing_metadata c) /\
    RpcErrorPayload_FromString (value m) = Some p /\
    zlib_decompress (compressed_data p) = None.
Proof.
  destruct e as [a|c|r]; intros H; try discriminate.
  destruct (Call_cases c) as [[_ Hn] | [(x & _ & _ & _ & Hx) | (m & p & Hlast & Hall & Hp & Hd)]];
    try congruence.
  rewrite Hd in H.
  destruct (decode_payload_cases p)
    as [[Hblob _] | [(data & _ & _ & Hz) | (data & d' & _ & _ & Hz)]];
    try congruence.
  now exists c, m, p.
Qed.

(** X5. A decode failure has one of two origins: some entry under the key
    holds bytes that do not parse as a payload, or every entry under the
    key parsed and the blob of the last one inflated to bytes that do not
    parse as a detail. *)
Theorem decode_failure_origin (e : PyObject) :
  to_exception_detail e = Raise DecodeError ->
  exists c, e = Call_instance c /\
    ((exists x, In x (trailing_metadata c) /\ key x = _EXCEPTION_KEY /\
        RpcErrorPayload_FromString (value x) = None) \/
     (exists m p data,
        last_match (trailing_metadata c) m /\
        all_matches_parse (trailing_metadata c) /\
        RpcErrorPayload_FromString (value m) = Some p /\
        zlib_decompress (compressed_data p) = Some data /\
        ExceptionDetail_FromString data = None)).
Proof.
  destruct e as [a|c|r]; intros H; try discriminate.
  exists c. split; [reflexivity|].
  destruct (Call_cases c) as [[_ Hn] | [(x & Hin & Hkey & Hbad & _) | (m & p & Hlast & Hall & Hp & Hd)]];
    try congruence.
  - left. now exists x.
  - right. rewrite Hd in H.
    destruct (decode_payload_cases p)
      as [[_ Hz] | [(data & Hdata & Hdetail & _) | (data & d' & _ & _ & Hz)]];
      try congruence.
    now exists m, p, data.
Qed.

(** X6. The outcome is decided by the values of the entries under the key,
    in their order, and by nothing else in the trailing metadata: entries
    with other keys can be added, removed or moved anywhere. *)
Theorem outcome_depends_on_matching_values (c1 c2 : Call) :
  map value (matching (trailing_metadata c1)) =
  map value (matching (trailing_metadata c2)) ->
  to_exception_detail (Call_instance c1) = to_exception_detail (Call_instance c2).
Proof.
  intros H. now rewrite !to_exception_detail_Call, !scan_parse_all, H.
Qed.

(** X7. Later metadata overrides earlier metadata: when the entries under
    the key in a first stretch all parse and a second stretch has an entry
    under the key, the outcome on the two stretches in sequence is the
    outcome on the second alone, be it a detail or a failure. *)
Theorem later_metadata_overrides (c : Call) (mds1 mds2 : list Metadatum) :
  trailing_metadata c = mds1 ++ mds2 ->
  all_matches_parse mds1 ->
  matching mds2 <> [] ->
  to_exception_detail (Call_instance c) =
  to_exception_detail (Call_instance (with_trailing_metadata c mds2)).
Proof.
  intros Hmds Hall Hsome.
  rewrite !to_exception_detail_Call, !scan_parse_all. simpl trailing_metadata.
  rewrite Hmds, matching_app, map_app, parse_all_app.
  destruct (@parse_all_total _ (matching mds1) Hall) as [ps1 ->].
  destruct (parse_all (map value (matching mds2))) as [ps2|] eqn:E2; [|reflexivity].
  destruct (parse_all_well_formed _ E2) as [Hlen _].
  destruct (exists_last_or_nil ps2) as [-> | (l & q & ->)].
  - destruct (matching mds2); [contradiction | discriminate].
  - rewrite app_assoc, (map_app Some (ps1 ++ l)), (map_app Some l).
    simpl (map Some [q]). now rewrite !last_last.
Qed.

Section Duplicates.

Context {P : Producer R} (laws : ProducerLaws P).

(** X8. The round trip with duplicates: when every entry under the key
    holds the serialization of some payload, and the blob of the last one
    is the compression of the serialization of a detail [d], the function
    returns [d]. *)
Theorem roundtrip_last_of_duplicates (c : Call) (m : Metadatum)
    (p : RpcErrorPayload) (d : ExceptionDetail) :
  last_match (trailing_metadata c) m ->
  (forall x, In x (matching (trailing_metadata c)) ->
     exists q, value x = RpcErrorPayload_SerializeToString q) ->
  value m = RpcErrorPayload_SerializeToString p ->
  compressed_data p = zlib_compress (ExceptionDetail_SerializeToString d) ->
  to_exception_detail (Call_instance c) = Return (Some d).
Proof.
  intros Hlast Hmade Hvalue Hblob.
  assert (Hall : all_matches_parse (trailing_metadata c)).
  { intros x Hx. destruct (Hmade x Hx) as [q ->].
    now rewrite RpcErrorPayload_parse_serialize. }
  rewrite (to_exception_detail_last_match _ Hlast
             (all_matches_parse_earlier Hlast Hall)).
  unfold decode_value, decode_payload.
  rewrite Hvalue, RpcErrorPayload_parse_serialize. simpl.
  rewrite Hblob, zlib_decompress_compress. simpl.
  now rewrite ExceptionDetail_parse_serialize.
Qed.

End Duplicates.

End Further_properties.

(** ** The further properties on the miniature runtime *)

(** Witness of X1: a call that answered [None] carried only other keys. *)
Lemma absent_means_nothing_matched_witness :
  isinstance_Call (Call_instance (failed_call [entry_content_type; entry_upper])) = false \/
  exists c,
    Call_instance (failed_call [entry_content_type; entry_upper]) = Call_instance c /\
    forall m, In m (trailing_metadata c) -> key m <> _EXCEPTION_KEY.
Proof.
  apply (@absent_means_nothing_matched mini_runtime
           (Call_instance (failed_call [entry_content_type; entry_upper]))).
  reflexivity.
Defined.

(** Witness of X2: after a well-formed entry, a payload whose blob
    inflates to one byte that is no detail. *)
Lemma malformed_detail_propagates_witness :
  to_exception_detail (Call_instance (failed_call [entry_boom; entry_bad_detail]))
  = Raise DecodeError.
Proof.
  apply (@malformed_detail_propagates mini_runtime
           (failed_call [entry_boom; entry_bad_detail]) entry_bad_detail
           {| mini_compressed_data := [x78; x9c; xff] |} [xff]).
  - solve_last_match [entry_boom] (@nil Metadatum).
  - solve_earlier_parse.
  - reflexivity.
  - reflexivity.
  - reflexivity.
Defined.

(** Witness of X3: the call that returned [boom]. *)
Lemma returned_detail_comes_from_last_match_witness :
  exists c m p data,
    Call_instance (failed_call [entry_content_type; entry_boom]) = Call_instance c /\
    last_match (trailing_metadata c) m /\
    all_matches_parse (trailing_metadata c) /\
    RpcErrorPayload_FromString (value m) = Some p /\
    zlib_decompress (compressed_data p) = Some data /\
    ExceptionDetail_FromString data = Some boom.
Proof.
  apply (@returned_detail_comes_from_last_match mini_runtime
           (Call_instance (failed_call [entry_content_type; entry_boom])) boom).
  reflexivity.
Defined.

(** Witness of X4: a well-formed entry followed by one with a cut blob. *)
Lemma decompression_failure_comes_from_last_blob_witness :
  exists c m p,
    Call_instance (failed_call [entry_boom; entry_truncated]) = Call_instance c /\
    last_match (trailing_metadata c) m /\
    all_matches_parse (trailing_metadata c) /\
    RpcErrorPayload_FromString (value m) = Some p /\
    zlib_decompress (compressed_data p) = None.
Proof.
  apply (@decompression_failure_comes_from_last_blob mini_runtime
           (Call_instance (failed_call [entry_boom; entry_truncated]))).
  reflexivity.
Defined.

(** Witness of X5: bytes that are no payload, ahead of a well-formed
    entry. *)
Lemma decode_failure_origin_witness :
  exists c,
    Call_instance (failed_call [entry_garbage; entry_boom]) = Call_instance c /\
    ((exists x, In x (trailing_metadata c) /\ key x = _EXCEPTION_KEY /\
        RpcErrorPayload_FromString (value x) = None) \/
     (exists m p data,
        last_match (trailing_metadata c) m /\
        all_matches_parse (trailing_metadata c) /\
        RpcErrorPayload_FromString (value m) = Some p /\
        zlib_decompress (compressed_data p) = Some data /\
        ExceptionDetail_FromString data = None)).
Proof.
  apply (@decode_failure_origin mini_runtime
           (Call_instance (failed_call [entry_garbage; entry_boom]))).
  reflexivity.
Defined.

(** Witness of X6: the same two values under the key, with other entries
    placed differently around them. *)
Lemma outcome_depends_on_matching_values_witness :
  to_exception_detail
    (Call_instance (failed_call [entry_content_type; entry_boom; entry_near; entry_bang]))
  = to_exception_detail
    (Call_instance (mkCall [] [entry_boom; entry_bang; entry_upper] INTERNAL "")).
Proof.
  apply (@outcome_depends_on_matching_values mini_runtime). reflexivity.
Defined.

(** Witness of X7: a well-formed entry, then a stretch whose entry under
    the key has a cut blob; the failure of the second stretch is the
    outcome. *)
Lemma later_metadata_overrides_witness :
  to_exception_detail
    (Call_instance (failed_call
       ([entry_boom; entry_content_type] ++ [entry_near; entry_truncated])))
  = to_exception_detail
    (Call_instance (with_trailing_metadata
       (failed_call ([entry_boom; entry_content_type] ++ [entry_near; entry_truncated]))
       [entry_near; entry_truncated])).
Proof.
  apply (@later_metadata_overrides mini_runtime
           (failed_call ([entry_boom; entry_content_type] ++ [entry_near; entry_truncated]))
           [entry_boom; entry_content_type] [entry_near; entry_truncated]).
  - reflexivity.
  - solve_earlier_parse.
  - discriminate.
Defined.

(** Witness of X8: two entries made by the producer; the detail of the
    second comes back. *)
Lemma roundtrip_last_of_duplicates_witness :
  to_exception_detail
    (Call_instance (failed_call [entry_boom; entry_content_type; entry_bang]))
  = Return (Some bang).
Proof.
  apply (@roundtrip_last_of_duplicates mini_runtime mini_producer mini_producer_laws
           (failed_call [entry_boom; entry_content_type; entry_bang]) entry_bang
           {| mini_compressed_data := mini_deflate (mini_detail_serialize bang) |} bang).
  - solve_last_match [entry_boom; entry_content_type] (@nil Metadatum).
  - intros x Hx. vm_compute in Hx.
    destruct Hx as [<- | [<- | []]]; eexists (Build_mini_payload _); reflexivity.
  - reflexivity.
  - reflexivity.
Defined.

(** ** The function on a heap: no effect, and an outcome read off the
    argument alone *)

Section On_heap.

Context {R : Runtime}.

Lemma scan_trailing_metadata_on_pure (mds : list Metadatum)
    (error_info : option RpcErrorPayload) (h : heap) :
  scan_trailing_metadata_on mds error_info h =
  (scan_trailing_metadata mds error_info, h).
Proof.
  revert error_info. induction mds as [|x mds IH]; intros error_info; simpl;
    [reflexivity|].
  destruct (key x =? _EXCEPTION_KEY)%string; [|apply IH].
  unfold bind_st, lift, bind, or_raise.
  destruct (RpcErrorPayload_FromString (value x)); [apply IH | reflexivity].
Qed.

(** The call leaves the heap as it found it and yields what
    [to_exception_detail] yields on the object behind the reference. *)
Lemma to_exception_detail_on_pure (h : heap) (e : ref) (o : PyObject) :
  nth_error h e = Some o ->
  to_exception_detail_on e h = (to_exception_detail o, h).
Proof.
  intros He. unfold to_exception_detail_on, bind_st at 1, deref. rewrite He.
  destruct o as [a|c|r]; try reflexivity.
  unfold to_exception_detail, bind_st at 1.
  rewrite scan_trailing_metadata_on_pure.
  destruct (scan_trailing_metadata (trailing_metadata c) None) as [[p|]|x];
    try reflexivity.
  simpl. unfold bind_st, lift, unit_st, bind, or_raise.
  destruct (zlib_decompress (compressed_data p)) as [data|]; [|reflexivity].
  now destruct (ExceptionDetail_FromString data).
Qed.


End On_heap.

(** A computation that writes does not leave the heap as it found it. *)
Example assign_is_an_effect :
  snd (assign 1 (other_instance "overwritten") heap_one) <> heap_one.
Proof. discriminate. Qed.

